(** * Sign Language Converter: the [App] component of [src/App.tsx]

    A shallow embedding of the component's state (the five [useState]
    cells, the two refs, and the parts of the browser the handlers touch)
    and of every handler, followed by the properties of the camera
    session and of the conversion log. *)

From Stdlib Require Import ZArith NArith String List Bool Lia.
From stdpp Require Import base option list gmap strings.

Open Scope string_scope.

(** ** Values *)

(** What a [catch (err)] clause can receive.  The handlers only ask
    whether [err instanceof Error] and, if so, read [err.message]; the
    message of any other value is never read. *)
Inductive js_value :=
| JsError (message : string)
| JsOther (repr : string).

Definition instanceof_Error (v : js_value) : bool :=
  match v with JsError _ => true | JsOther _ => false end.

Definition message (v : js_value) : string :=
  match v with JsError m => m | JsOther _ => "" end.

(** The outcome of an awaited promise. *)
Inductive settled (A : Type) :=
| Fulfilled (a : A)
| Rejected (reason : js_value).
Arguments Fulfilled {A} a.
Arguments Rejected {A} reason.

(** The element type of the [conversions] state cell. *)
Module Conversion.

Record t := mk { id : Z; text : string; timestamp : string }.

End Conversion.

(** Media tracks are objects of the platform; a stream refers to them. *)
Inductive ReadyState := live | ended.

Record MediaStreamTrack := { readyState : ReadyState; enabled : bool }.

Record MediaStream := { stream_id : nat; getTracks : list nat }.

Record HTMLVideoElement := { srcObject : option MediaStream }.

Record VideoConstraints :=
  { width_ideal : Z; height_ideal : Z; facingMode : string }.

Record MediaStreamConstraints :=
  { video : VideoConstraints; audio : bool }.

(** Calls that leave the component. *)
Inductive effect :=
| GetUserMedia (c : MediaStreamConstraints)
| ClipboardWriteText (data : string)
| ConsoleLog (msg : string)
| ConsoleError (msg : string) (err : js_value).

(** The only callback ever given to [setTimeout] is
    [() => setCopiedId(null)]. *)
Inductive timer_callback := ClearCopiedId.

(** The window the component runs in.  [typeErrorMessage] is the text of
    the [TypeError] the engine raises for a property read on
    [undefined]. *)
Record Window := {
  location_protocol : string;
  location_hostname : string;
  prefers_dark : bool;
  navigator_mediaDevices : bool;
  navigator_clipboard : bool;
  typeErrorMessage : string
}.

(** ** Component state *)

Record App := {
  (* useState *)
  isStreaming : bool;
  error : option string;
  conversions : list Conversion.t;
  copiedId : option Z;
  isDarkMode : bool;
  (* useRef *)
  videoRef : option HTMLVideoElement;
  streamRef : option MediaStream;
  (* platform *)
  window : Window;
  classList_dark : bool;
  tracks : gmap nat MediaStreamTrack;
  clock : N;
  timers : list (N * timer_callback);
  effects : list effect
}.

Definition set_isStreaming (b : bool) (s : App) : App :=
  {| isStreaming := b; error := error s; conversions := conversions s;
     copiedId := copiedId s; isDarkMode := isDarkMode s;
     videoRef := videoRef s; streamRef := streamRef s; window := window s;
     classList_dark := classList_dark s; tracks := tracks s;
     clock := clock s; timers := timers s; effects := effects s |}.

Definition set_error (e : option string) (s : App) : App :=
  {| isStreaming := isStreaming s; error := e; conversions := conversions s;
     copiedId := copiedId s; isDarkMode := isDarkMode s;
     videoRef := videoRef s; streamRef := streamRef s; window := window s;
     classList_dark := classList_dark s; tracks := tracks s;
     clock := clock s; timers := timers s; effects := effects s |}.

Definition set_conversions (l : list Conversion.t) (s : App) : App :=
  {| isStreaming := isStreaming s; error := error s; conversions := l;
     copiedId := copiedId s; isDarkMode := isDarkMode s;
     videoRef := videoRef s; streamRef := streamRef s; window := window s;
     classList_dark := classList_dark s; tracks := tracks s;
     clock := clock s; timers := timers s; effects := effects s |}.

Definition set_copiedId (c : option Z) (s : App) : App :=
  {| isStreaming := isStreaming s; error := error s;
     conversions := conversions s; copiedId := c;
     isDarkMode := isDarkMode s;
     videoRef := videoRef s; streamRef := streamRef s; window := window s;
     classList_dark := classList_dark s; tracks := tracks s;
     clock := clock s; timers := timers s; effects := effects s |}.

Definition set_isDarkMode (b : bool) (s : App) : App :=
  {| isStreaming := isStreaming s; error := error s;
     conversions := conversions s; copiedId := copiedId s;
     isDarkMode := b;
     videoRef := videoRef s; streamRef := streamRef s; window := window s;
     classList_dark := classList_dark s; tracks := tracks s;
     clock := clock s; timers := timers s; effects := effects s |}.

Definition set_videoRef (v : option HTMLVideoElement) (s : App) : App :=
  {| isStreaming := isStreaming s; error := error s;
     conversions := conversions s; copiedId := copiedId s;
     isDarkMode := isDarkMode s;
     videoRef := v; streamRef := streamRef s; window := window s;
     classList_dark := classList_dark s; tracks := tracks s;
     clock := clock s; timers := timers s; effects := effects s |}.

Definition set_streamRef (m : option MediaStream) (s : App) : App :=
  {| isStreaming := isStreaming s; error := error s;
     conversions := conversions s; copiedId := copiedId s;
     isDarkMode := isDarkMode s;
     videoRef := videoRef s; streamRef := m; window := window s;
     classList_dark := classList_dark s; tracks := tracks s;
     clock := clock s; timers := timers s; effects := effects s |}.

Definition set_classList_dark (b : bool) (s : App) : App :=
  {| isStreaming := isStreaming s; error := error s;
     conversions := conversions s; copiedId := copiedId s;
     isDarkMode := isDarkMode s;
     videoRef := videoRef s; streamRef := streamRef s; window := window s;
     classList_dark := b; tracks := tracks s;
     clock := clock s; timers := timers s; effects := effects s |}.

Definition set_tracks (m : gmap nat MediaStreamTrack) (s : App) : App :=
  {| isStreaming := isStreaming s; error := error s;
     conversions := conversions s; copiedId := copiedId s;
     isDarkMode := isDarkMode s;
     videoRef := videoRef s; streamRef := streamRef s; window := window s;
     classList_dark := classList_dark s; tracks := m;
     clock := clock s; timers := timers s; effects := effects s |}.

Definition set_clock (c : N) (s : App) : App :=
  {| isStreaming := isStreaming s; error := error s;
     conversions := conversions s; copiedId := copiedId s;
     isDarkMode := isDarkMode s;
     videoRef := videoRef s; streamRef := streamRef s; window := window s;
     classList_dark := classList_dark s; tracks := tracks s;
     clock := c; timers := timers s; effects := effects s |}.

Definition set_timers (l : list (N * timer_callback)) (s : App) : App :=
  {| isStreaming := isStreaming s; error := error s;
     conversions := conversions s; copiedId := copiedId s;
     isDarkMode := isDarkMode s;
     videoRef := videoRef s; streamRef := streamRef s; window := window s;
     classList_dark := classList_dark s; tracks := tracks s;
     clock := clock s; timers := l; effects := effects s |}.

Definition set_effects (l : list effect) (s : App) : App :=
  {| isStreaming := isStreaming s; error := error s;
     conversions := conversions s; copiedId := copiedId s;
     isDarkMode := isDarkMode s;
     videoRef := videoRef s; streamRef := streamRef s; window := window s;
     classList_dark := classList_dark s; tracks := tracks s;
     clock := clock s; timers := timers s; effects := l |}.

(** ** Handlers run in a state monad with JavaScript exceptions

    A handler either completes normally or throws; what it wrote to the
    state before throwing stays written. *)

Inductive completion (A : Type) :=
| Normal (a : A)
| Throw (e : js_value).
Arguments Normal {A} a.
Arguments Throw {A} e.

Definition M (A : Type) : Type := App → completion A * App.

#[global] Instance M_ret : MRet M := λ A a s, (Normal a, s).

#[global] Instance M_bind : MBind M := λ A B f m s,
  match m s with
  | (Normal a, s') => f a s'
  | (Throw e, s') => (Throw e, s')
  end.

Definition throw {A} (e : js_value) : M A := λ s, (Throw e, s).

Definition try_catch {A} (body : M A) (handler : js_value → M A) : M A :=
  λ s, match body s with
       | (Normal a, s') => (Normal a, s')
       | (Throw e, s') => handler e s'
       end.

Definition gets {A} (f : App → A) : M A := λ s, (Normal (f s), s).

Definition modify (f : App → App) : M unit := λ s, (Normal tt, f s).

Definition await {A} (r : settled A) : M A :=
  match r with
  | Fulfilled a => mret a
  | Rejected e => throw e
  end.

Definition exec {A} (m : M A) (s : App) : App := (m s).2.

Definition outcome {A} (m : M A) (s : App) : completion A := (m s).1.

(** State setters and platform calls. *)
Definition setIsStreaming (b : bool) : M unit := modify (set_isStreaming b).
Definition setError (e : option string) : M unit := modify (set_error e).
Definition setCopiedId (c : option Z) : M unit := modify (set_copiedId c).
Definition setIsDarkMode (b : bool) : M unit := modify (set_isDarkMode b).

Definition setConversions (f : list Conversion.t → list Conversion.t)
  : M unit :=
  modify (λ s, set_conversions (f (conversions s)) s).

Definition perform (e : effect) : M unit :=
  modify (λ s, set_effects (effects s ++ [e]) s).

Definition console_log (msg : string) : M unit := perform (ConsoleLog msg).

Definition console_error (msg : string) (err : js_value) : M unit :=
  perform (ConsoleError msg err).

Definition setTimeout (cb : timer_callback) (delay : N) : M unit :=
  modify (λ s, set_timers (timers s ++ [((clock s + delay)%N, cb)]) s).

Definition classList_add_dark : M unit := modify (set_classList_dark true).

Definition classList_toggle_dark : M unit :=
  modify (λ s, set_classList_dark (negb (classList_dark s)) s).

(** ** The handlers of [App] *)

(** The first [useEffect] (lines 13-24): runs once, after the first
    render. *)
Definition mountEffect : M unit :=
  w ← gets window;
  (if prefers_dark w
   then setIsDarkMode true;; classList_add_dark
   else mret tt);;
  if negb (location_protocol w =? "https:")
     && negb (location_hostname w =? "localhost")
  then setError (Some "Camera access requires HTTPS or localhost connection.")
  else mret tt.

(** Lines 26-29.  The handler is made by a render and negates the
    [isDarkMode] constant of that render, [shown], not the cell as it is
    when the handler runs; [classList.toggle] works on the document as it
    is. *)
Definition toggleDarkMode (shown : bool) : M unit :=
  setIsDarkMode (negb shown);;
  classList_toggle_dark.

(** Lines 34-41. *)
Definition constraints : MediaStreamConstraints :=
  {| video := {| width_ideal := 1280; height_ideal := 720;
                 facingMode := "user" |};
     audio := false |}.

(** [navigator.mediaDevices.getUserMedia(c)], up to the pending promise:
    reading [getUserMedia] off an undefined [mediaDevices] throws. *)
Definition getUserMedia (c : MediaStreamConstraints) : M unit :=
  w ← gets window;
  if navigator_mediaDevices w
  then perform (GetUserMedia c)
  else throw (JsError (typeErrorMessage w)).

(** The [catch] clause of [startCamera], lines 51-55. *)
Definition startCamera_catch (err : js_value) : M unit :=
  let errorMessage :=
    if instanceof_Error err then message err
    else "Camera access denied. Please enable camera permissions." in
  setError (Some errorMessage);;
  console_error "Error accessing camera:" err.

(** [startCamera] (lines 31-56) is an async function: the part up to
    the [await] runs at the click and answers whether a promise is now
    pending; the rest runs when that promise settles.  Both parts lie
    inside the one [try] block. *)
Definition startCamera_call : M bool :=
  try_catch
    (getUserMedia constraints;; mret true)
    (λ err, startCamera_catch err;; mret false).

Definition startCamera_resume (r : settled MediaStream) : M unit :=
  try_catch
    (stream ← await r;
     v ← gets videoRef;
     match v with
     | Some _ =>
         modify (set_videoRef (Some {| srcObject := Some stream |}));;
         modify (set_streamRef (Some stream));;
         setIsStreaming true;;
         setError None
     | None => mret tt
     end)
    startCamera_catch.

(** An invocation during which nothing else happens. *)
Definition startCamera (r : settled MediaStream) : M unit :=
  pending ← startCamera_call;
  if pending : bool then startCamera_resume r else mret tt.

Definition track_stop (tr : MediaStreamTrack) : MediaStreamTrack :=
  {| readyState := ended; enabled := enabled tr |}.

Definition track_set_enabled (b : bool) (tr : MediaStreamTrack)
  : MediaStreamTrack :=
  {| readyState := readyState tr; enabled := b |}.

(** [getTracks().forEach(...)]: the callback updates each track object
    in place. *)
Definition forEach_track (ids : list nat)
    (f : MediaStreamTrack → MediaStreamTrack) : M unit :=
  modify (λ s, set_tracks (foldl (λ m t, alter f t m) (tracks s) ids) s).

(** Lines 58-70. *)
Definition stopCamera : M unit :=
  cur ← gets streamRef;
  match cur with
  | Some stream =>
      forEach_track (getTracks stream)
        (λ track, track_set_enabled false (track_stop track));;
      v ← gets videoRef;
      (match v with
       | Some _ => modify (set_videoRef (Some {| srcObject := None |}))
       | None => mret tt
       end);;
      modify (set_streamRef None);;
      setIsStreaming false
  | None => mret tt
  end.

(** The second [useEffect] (lines 72-76) only returns a cleanup.  When
    the component goes away the ref to the video element is detached,
    then the cleanup runs. *)
Definition unmount : M unit :=
  modify (set_videoRef None);;
  stopCamera.

(** Lines 78-86.  [now] is what [Date.now()] answers and [localeTime]
    what [new Date().toLocaleTimeString()] answers at the click. *)
Definition handleConvertToText (now : Z) (localeTime : string) : M unit :=
  let newConversion :=
    Conversion.mk now "Hello, how are you?" localeTime in
  setConversions (λ prev, newConversion :: prev).

(** Lines 88-91. *)
Definition handleConvertToSpeech : M unit :=
  console_log "Converting to speech...".

(** Lines 93-95. *)
Definition clearConversions : M unit :=
  setConversions (λ _, []).

Definition clipboard_writeText (data : string) : M unit :=
  w ← gets window;
  if navigator_clipboard w
  then perform (ClipboardWriteText data)
  else throw (JsError (typeErrorMessage w)).

(** [copyToClipboard] (lines 97-105), split at its [await] like
    [startCamera]. *)
Definition copyToClipboard_catch (err : js_value) : M unit :=
  console_error "Failed to copy text:" err.

Definition copyToClipboard_call (text : string) (id : Z) : M bool :=
  try_catch
    (clipboard_writeText text;; mret true)
    (λ err, copyToClipboard_catch err;; mret false).

Definition copyToClipboard_resume (id : Z) (r : settled unit) : M unit :=
  try_catch
    (await r;;
     setCopiedId (Some id);;
     setTimeout ClearCopiedId 2000)
    copyToClipboard_catch.

(** What the list renders for one record (line 226): the check mark or
    the copy icon. *)
Definition isCopied (s : App) (conversion : Conversion.t) : bool :=
  bool_decide (copiedId s = Some (Conversion.id conversion)).

(** ** Timers *)

Definition run_callback (cb : timer_callback) : M unit :=
  match cb with ClearCopiedId => setCopiedId None end.

Definition is_due (now : N) (t : N * timer_callback) : Prop := (t.1 ≤ now)%N.

#[global] Instance is_due_dec now t : Decision (is_due now t).
Proof. unfold is_due. apply _. Defined.

(** Let [ms] milliseconds pass: every timer that has come due fires, in
    the order in which the timers were set. *)
Definition elapse (ms : N) (s : App) : App :=
  let now := (clock s + ms)%N in
  let due := filter (is_due now) (timers s) in
  let rest := filter (λ t, ¬ is_due now t) (timers s) in
  foldl (λ s t, exec (run_callback t.2) s)
        (set_clock now (set_timers rest s)) due.

(** ** The component as a machine driven by the browser

    A click on the dark-mode button comes with the flag of the render
    whose handler receives it. *)

Inductive event :=
| Mount
| Unmount
| ClickToggleDarkMode (shown : bool)
| ClickStartCamera
| GetUserMediaSettled (r : settled MediaStream)
| ClickStopCamera
| ClickConvertToText (now : Z) (localeTime : string)
| ClickConvertToSpeech
| ClickClear
| ClickCopy (text : string) (id : Z)
| WriteTextSettled (id : Z) (r : settled unit)
| Elapse (ms : N).

(** A stream handed out by the platform comes with live tracks. *)
Definition open_tracks (r : settled MediaStream) (s : App) : App :=
  match r with
  | Fulfilled stream =>
      set_tracks
        (foldl (λ m t, <[t := {| readyState := live; enabled := true |}]> m)
               (tracks s) (getTracks stream)) s
  | Rejected _ => s
  end.

Definition step (s : App) (e : event) : App :=
  match e with
  | Mount => exec mountEffect s
  | Unmount => exec unmount s
  | ClickToggleDarkMode shown => exec (toggleDarkMode shown) s
  | ClickStartCamera => exec startCamera_call s
  | GetUserMediaSettled r => exec (startCamera_resume r) (open_tracks r s)
  | ClickStopCamera => exec stopCamera s
  | ClickConvertToText now localeTime =>
      exec (handleConvertToText now localeTime) s
  | ClickConvertToSpeech => exec handleConvertToSpeech s
  | ClickClear => exec clearConversions s
  | ClickCopy text id => exec (copyToClipboard_call text id) s
  | WriteTextSettled id r => exec (copyToClipboard_resume id r) s
  | Elapse ms => elapse ms s
  end.

Definition run (es : list event) (s : App) : App := foldl step s es.

(** Every click on the dark-mode button in [es] is received by the
    handler of a render that shows the flag as it is at that click. *)
Fixpoint toggles_fresh (es : list event) (s : App) : Prop :=
  match es with
  | [] => True
  | e :: es =>
      match e with
      | ClickToggleDarkMode shown => shown = isDarkMode s
      | _ => True
      end
      ∧ toggles_fresh es (step s e)
  end.

(** The state after the first render, before any effect has run. *)
Definition initial (w : Window) : App :=
  {| isStreaming := false; error := None; conversions := [];
     copiedId := None; isDarkMode := false;
     videoRef := Some {| srcObject := None |}; streamRef := None;
     window := w; classList_dark := false; tracks := ∅;
     clock := 0; timers := []; effects := [] |}.

(** The test of the mount effect, read as a property of the window. *)
Definition insecure (w : Window) : Prop :=
  location_protocol w ≠ "https:" ∧ location_hostname w ≠ "localhost".

(** ** Sample environments used by the concrete runs below *)

Definition plain_http : Window :=
  {| location_protocol := "http:"; location_hostname := "192.168.1.20";
     prefers_dark := false; navigator_mediaDevices := true;
     navigator_clipboard := true;
     typeErrorMessage := "undefined is not an object" |}.

Definition front_camera : MediaStream :=
  {| stream_id := 1; getTracks := [7] |}.

Definition dark_localhost : Window :=
  {| location_protocol := "http:"; location_hostname := "localhost";
     prefers_dark := true; navigator_mediaDevices := true;
     navigator_clipboard := false;
     typeErrorMessage := "undefined is not an object" |}.

Definition second_camera : MediaStream :=
  {| stream_id := 2; getTracks := [8] |}.

Definition placeholder (i : Z * string) : Conversion.t :=
  Conversion.mk i.1 "Hello, how are you?" i.2.

Definition convert_clicks (inputs : list (Z * string)) : list event :=
  (λ i, ClickConvertToText i.1 i.2) <$> inputs.

(** ** What the component renders (lines 107-241)

    Only what depends on the state is kept: which buttons exist, which
    are disabled, the banner and the rows of the list. *)

Inductive theme_icon := SunIcon | MoonIcon.

Inductive copy_icon := CheckIcon | CopyIcon.

#[global] Instance copy_icon_eq_dec : EqDecision copy_icon.
Proof. solve_decision. Defined.

Record Row := {
  row_key : Z;
  row_text : string;
  row_timestamp : string;
  row_icon : copy_icon
}.

Inductive Panel :=
| NoConversionsYet
| ConversionList (rows : list Row).

Record View := {
  toggle_title : string;
  toggle_icon : theme_icon;
  start_overlay : bool;
  video_hidden : bool;
  error_banner : option string;
  convert_text_disabled : bool;
  convert_speech_disabled : bool;
  stop_button : bool;
  clear_button : bool;
  panel : Panel
}.

(** [{error && (...)}]: neither [null] nor the empty string renders the
    banner. *)
Definition truthy (e : option string) : option string :=
  match e with
  | Some EmptyString => None
  | Some m => Some m
  | None => None
  end.

(** Lines 212-233. *)
Definition render_row (s : App) (conversion : Conversion.t) : Row :=
  {| row_key := Conversion.id conversion;
     row_text := Conversion.text conversion;
     row_timestamp := Conversion.timestamp conversion;
     row_icon := if isCopied s conversion then CheckIcon else CopyIcon |}.

Definition render (s : App) : View :=
  {| toggle_title := if isDarkMode s then "Switch to light mode"
                     else "Switch to dark mode";
     toggle_icon := if isDarkMode s then SunIcon else MoonIcon;
     start_overlay := negb (isStreaming s);
     video_hidden := negb (isStreaming s);
     error_banner := truthy (error s);
     convert_text_disabled := negb (isStreaming s);
     convert_speech_disabled := negb (isStreaming s);
     stop_button := isStreaming s;
     clear_button := bool_decide (0 < length (conversions s))%nat;
     panel := if bool_decide (length (conversions s) = 0%nat)
              then NoConversionsYet
              else ConversionList (render_row s <$> conversions s) |}.

(** The rows that show the check mark. *)
Definition checked_rows (v : View) : list Row :=
  match panel v with
  | NoConversionsYet => []
  | ConversionList rows => filter (λ r, row_icon r = CheckIcon) rows
  end.


(** ** Invariants of the machine *)

(** The class on the document root follows the dark-mode cell. *)
Definition dark_in_sync (s : App) : Prop := classList_dark s = isDarkMode s.

(** The streaming flag is on exactly when a handle is stored, and an
    attached video element shows exactly the stored stream. *)
Definition session_consistent (s : App) : Prop :=
  (isStreaming s = true ↔ is_Some (streamRef s))
  ∧ (∀ video, videoRef s = Some video → srcObject video = streamRef s).

(** Every pending timer comes due within 2000 ms, and a mark is never
    without a timer that will clear it. *)
Definition timers_bounded (s : App) : Prop :=
  (∀ t, t ∈ timers s → (t.1 ≤ clock s + 2000)%N)
  ∧ (is_Some (copiedId s) → timers s ≠ []).

(** The component is gone: no element, no handle, not streaming. *)
Definition unmounted (s : App) : Prop :=
  videoRef s = None ∧ streamRef s = None ∧ isStreaming s = false.

Definition live_track : MediaStreamTrack :=
  {| readyState := live; enabled := true |}.

Definition is_clear (e : event) : bool :=
  match e with ClickClear => true | _ => false end.

(** ** Proof automation *)

(** Unfolds one step of the machine down to the record it builds. *)
Ltac handler :=
  cbv [step exec outcome mountEffect unmount toggleDarkMode startCamera_call
       startCamera_resume stopCamera handleConvertToText
       handleConvertToSpeech clearConversions copyToClipboard_call
       copyToClipboard_resume getUserMedia clipboard_writeText
       startCamera_catch copyToClipboard_catch forEach_track
       classList_add_dark classList_toggle_dark setTimeout console_log
       console_error perform setConversions setIsDarkMode setCopiedId
       setError setIsStreaming await modify gets try_catch throw
       mbind M_bind mret M_ret open_tracks snd fst].

Ltac handler_cases := handler; repeat (case_match; simplify_eq/=).

(** * Properties *)

(** ** Dark mode *)

(** C10, as the code has it. Each handler sets the flag to the negation
    of what its own render showed and flips the class on the document
    root.  After two toggles the class is what it was and the flag is the
    negation of what the second handler's render showed; when the first
    click is handled by the render of the current state and the second
    by the render that followed it, the flag and the whole state are
    what they were. *)
Theorem toggleDarkMode_involutive (s : App) (shown1 shown2 : bool) :
  let s2 := exec (toggleDarkMode shown2) (exec (toggleDarkMode shown1) s) in
  classList_dark s2 = classList_dark s
  ∧ isDarkMode s2 = negb shown2
  ∧ (shown1 = isDarkMode s →
     shown2 = isDarkMode (exec (toggleDarkMode shown1) s) →
     isDarkMode s2 = isDarkMode s ∧ s2 = s).
Proof.
  destruct s as [st er cs ci dm vr sr w cd tr ck tm ef].
  cbv [exec toggleDarkMode mbind M_bind setIsDarkMode modify
       classList_toggle_dark set_isDarkMode set_classList_dark
       fst snd isDarkMode classList_dark].
  cbn. rewrite !negb_involutive.
  split; [done|]. split; [done|].
  intros -> ->. by rewrite negb_involutive.
Qed.

Lemma toggleDarkMode_involutive_witness :
  exec (toggleDarkMode true) (exec (toggleDarkMode false) (initial plain_http))
  = initial plain_http.
Proof.
  destruct (toggleDarkMode_involutive (initial plain_http) false true)
    as (_ & _ & H).
  apply H; reflexivity.
Defined.

(** C10 as stated fails: the handler of one render, applied twice, sets
    the flag twice to the same value, so the flag is not the one from
    before, while the class has flipped back. *)
Lemma toggleDarkMode_same_render_twice :
  let s := initial plain_http in
  let handler := toggleDarkMode (isDarkMode s) in
  let s2 := exec handler (exec handler s) in
  isDarkMode s = false
  ∧ isDarkMode s2 = true
  ∧ classList_dark s2 = classList_dark s.
Proof. repeat split. Qed.

(** ** Convert to speech *)

(** C8. The convert-to-speech action changes none of the five state
    cells (nor the refs, the tracks or the timers); it completes normally
    and its only trace is one console line. *)
Theorem handleConvertToSpeech_frame (s : App) :
  let s' := exec handleConvertToSpeech s in
  conversions s' = conversions s
  ∧ isStreaming s' = isStreaming s
  ∧ error s' = error s
  ∧ copiedId s' = copiedId s
  ∧ isDarkMode s' = isDarkMode s
  ∧ s' = set_effects (effects s ++ [ConsoleLog "Converting to speech..."]) s
  ∧ outcome handleConvertToSpeech s = Normal tt.
Proof. repeat split. Qed.

(** ** The conversion log *)

Lemma conversions_convert_clicks inputs s :
  conversions (run (convert_clicks inputs) s)
  = (reverse (placeholder <$> inputs) ++ conversions s)%list.
Proof.
  revert s. induction inputs as [|i inputs IH]; intros s; [done|].
  cbn [convert_clicks fmap list_fmap run foldl].
  change (foldl step ?a ?l) with (run l a).
  change (list_fmap _ _ ?f ?l) with (f <$> l).
  fold (convert_clicks inputs). rewrite IH.
  rewrite reverse_cons, <- app_assoc. reflexivity.
Qed.

(** C9. Clearing empties the log and leaves the streaming flag, the
    error, the dark-mode flag and the copied-id mark as they were: a
    record that was marked as copied is still the marked one after it has
    left the log. *)
Theorem clearConversions_frame (s : App) :
  let s' := exec clearConversions s in
  conversions s' = []
  ∧ isStreaming s' = isStreaming s
  ∧ error s' = error s
  ∧ isDarkMode s' = isDarkMode s
  ∧ copiedId s' = copiedId s
  ∧ s' = set_conversions [] s
  ∧ (∀ c, isCopied s c = true → isCopied s' c = true ∧ c ∉ conversions s').
Proof.
  repeat split; try done.
  cbn. apply not_elem_of_nil.
Qed.

(** C6, as the code has it. A click on convert-to-text builds a record
    whose id is the clock reading, whose text is the fixed placeholder and
    whose timestamp is the current time string, and puts it at position 0;
    every record that was stored moves down one place, unchanged and in
    the same order; nothing else in the state changes.  The id is fresh
    exactly when no stored record already carries that clock reading. *)
Theorem handleConvertToText_inserts_at_head
    (s : App) (now : Z) (localeTime : string) :
  let s' := exec (handleConvertToText now localeTime) s in
  let new := Conversion.mk now "Hello, how are you?" localeTime in
  conversions s' = new :: conversions s
  ∧ conversions s' !! 0%nat = Some new
  ∧ (∀ i : nat, conversions s' !! S i = conversions s !! i)
  ∧ s' = set_conversions (new :: conversions s) s
  ∧ outcome (handleConvertToText now localeTime) s = Normal tt
  ∧ (Conversion.id new ∉ Conversion.id <$> conversions s
     ↔ ∀ c, c ∈ conversions s → Conversion.id c ≠ now).
Proof.
  repeat split; try done.
  - intros Hfresh c Hc Heq. apply Hfresh. cbn. rewrite <- Heq.
    apply list_elem_of_fmap. eauto.
  - intros Hne Hin. cbn in Hin.
    apply list_elem_of_fmap in Hin as (c & Heq & Hc).
    by apply (Hne c Hc).
Qed.

Lemma handleConvertToText_inserts_at_head_witness :
  conversions
    (exec (handleConvertToText 1001 "10:00:01")
          (run (convert_clicks [(1000%Z, "10:00:00")]) (initial plain_http)))
  !! 1%nat
  = Some (Conversion.mk 1000 "Hello, how are you?" "10:00:00").
Proof.
  destruct (handleConvertToText_inserts_at_head
              (run (convert_clicks [(1000%Z, "10:00:00")])
                   (initial plain_http))
              1001 "10:00:01") as (_ & _ & H & _).
  rewrite H. reflexivity.
Defined.

(** C6 as stated fails: a second click within the same clock reading
    builds a record whose id is already in the log. *)
Lemma handleConvertToText_id_not_fresh :
  let s := run (convert_clicks [(1000%Z, "10:00:00")]) (initial plain_http) in
  let s' := exec (handleConvertToText 1000 "10:00:00") s in
  ∃ new, conversions s' !! 0%nat = Some new
         ∧ Conversion.id new ∈ Conversion.id <$> conversions s.
Proof.
  eexists. split; [reflexivity|]. cbn. apply list_elem_of_here.
Qed.

(** C3, as the code has it. After N clicks on convert-to-text, starting
    from an empty log, the log holds N records, the latest first (it is
    the list of the records built, reversed).  The ids are the clock
    readings, so they are pairwise distinct exactly when the N readings
    are. *)
Theorem convert_sequence_log (inputs : list (Z * string)) (s : App) :
  conversions s = [] →
  let log := conversions (run (convert_clicks inputs) s) in
  length log = length inputs
  ∧ log = reverse (placeholder <$> inputs)
  ∧ (NoDup (Conversion.id <$> log) ↔ NoDup inputs.*1).
Proof.
  intros Hempty log. subst log.
  rewrite conversions_convert_clicks, Hempty, app_nil_r.
  split; [|split].
  - by rewrite length_reverse, length_fmap.
  - reflexivity.
  - rewrite fmap_reverse, reverse_Permutation, <- list_fmap_compose.
    reflexivity.
Qed.

Lemma convert_sequence_log_witness :
  conversions
    (run (convert_clicks [(1000%Z, "10:00:00"); (1001%Z, "10:00:00")])
         (initial plain_http))
  = [Conversion.mk 1001 "Hello, how are you?" "10:00:00";
     Conversion.mk 1000 "Hello, how are you?" "10:00:00"].
Proof.
  destruct (convert_sequence_log
              [(1000%Z, "10:00:00"); (1001%Z, "10:00:00")]
              (initial plain_http) eq_refl) as (_ & H & _).
  rewrite H. reflexivity.
Defined.

(** C3 as stated fails: two clicks that read the same clock value leave
    two records with the same id. *)
Lemma convert_same_reading_duplicate_ids :
  let s := run (convert_clicks [(1000%Z, "10:00:00"); (1000%Z, "10:00:00")])
               (initial plain_http) in
  length (conversions s) = 2%nat
  ∧ ¬ NoDup (Conversion.id <$> conversions s).
Proof.
  split; [reflexivity|]. cbn. intros H.
  apply NoDup_cons in H as [H _]. apply H, list_elem_of_here.
Qed.

(** ** The camera session *)

Lemma stopCamera_inactive (s : App) :
  streamRef s = None → stopCamera s = (Normal tt, s).
Proof.
  intros H. unfold stopCamera, mbind, M_bind, gets. by rewrite H.
Qed.

Lemma stopCamera_active (s : App) (stream : MediaStream) :
  streamRef s = Some stream →
  stopCamera s
  = (Normal tt,
     set_isStreaming false
       (set_streamRef None
          (set_videoRef
             (match videoRef s with
              | Some _ => Some {| srcObject := None |}
              | None => None
              end)
             (set_tracks
                (foldl (λ m t,
                          alter (λ track,
                                   track_set_enabled false (track_stop track))
                                t m)
                       (tracks s) (getTracks stream))
                s)))).
Proof.
  intros H. destruct s as [st er cs ci dm vr sr w cd tr ck tm ef].
  cbn in H. subst sr.
  unfold stopCamera, mbind, M_bind, gets, forEach_track, modify,
    setIsStreaming, mret, M_ret.
  cbn. by destruct vr.
Qed.

Lemma lookup_foldl_alter (f : MediaStreamTrack → MediaStreamTrack)
    (ids : list nat) (m : gmap nat MediaStreamTrack) (t : nat) :
  (∀ x, f (f x) = f x) →
  foldl (λ m t, alter f t m) m ids !! t
  = if decide (t ∈ ids) then f <$> m !! t else m !! t.
Proof.
  intros Hf. revert m.
  induction ids as [|i ids IH]; intros m; cbn [foldl].
  - rewrite decide_False; [done|apply not_elem_of_nil].
  - rewrite IH. destruct (decide (t = i)) as [->|Hne].
    + rewrite lookup_alter_eq.
      rewrite (decide_True (P := i ∈ i :: ids)); [|apply list_elem_of_here].
      destruct (m !! i) as [x|]; destruct (decide (i ∈ ids)); cbn;
        by rewrite ?Hf.
    + rewrite lookup_alter_ne by done.
      destruct (decide (t ∈ ids)) as [Hin|Hnin].
      * rewrite decide_True; [done|by apply list_elem_of_further].
      * rewrite decide_False; [done|].
        rewrite elem_of_cons. intros [?|?]; done.
Qed.

(** C7. [stopCamera] never throws.  With no session it leaves the state
    as it is; a second call right after a first changes nothing; and on
    an active session the first call turns the streaming flag off, drops
    the handle, detaches the stream from the video element and leaves
    every track of the stream ended and disabled. *)
Theorem stopCamera_idempotent (s : App) :
  outcome stopCamera s = Normal tt
  ∧ (streamRef s = None → stopCamera s = (Normal tt, s))
  ∧ stopCamera (exec stopCamera s) = (Normal tt, exec stopCamera s)
  ∧ exec stopCamera (exec stopCamera s) = exec stopCamera s
  ∧ (∀ stream, streamRef s = Some stream →
       let s' := exec stopCamera s in
       isStreaming s' = false
       ∧ streamRef s' = None
       ∧ (∀ video, videoRef s' = Some video → srcObject video = None)
       ∧ (∀ t track, t ∈ getTracks stream → tracks s !! t = Some track →
            tracks s' !! t
            = Some {| readyState := ended; enabled := false |})
       ∧ (∀ t, t ∉ getTracks stream → tracks s' !! t = tracks s !! t)).
Proof.
  assert (Hsecond : stopCamera (exec stopCamera s)
                    = (Normal tt, exec stopCamera s)).
  { apply stopCamera_inactive. unfold exec.
    destruct (streamRef s) as [stream|] eqn:Hs.
    - by rewrite (stopCamera_active s stream).
    - by rewrite stopCamera_inactive. }
  split; [|split; [|split; [|split]]].
  - unfold outcome. destruct (streamRef s) as [stream|] eqn:Hs.
    + by rewrite (stopCamera_active s stream).
    + by rewrite stopCamera_inactive.
  - apply stopCamera_inactive.
  - exact Hsecond.
  - unfold exec at 1. by rewrite Hsecond.
  - intros stream Hs s'. subst s'. unfold exec.
    rewrite (stopCamera_active s stream Hs). cbn.
    split; [done|]. split; [done|]. split; [|split].
    + intros video Hv. destruct (videoRef s); by simplify_eq.
    + intros t track Hin Ht. rewrite lookup_foldl_alter by done.
      rewrite decide_True by done. by rewrite Ht.
    + intros t Hnin. rewrite lookup_foldl_alter by done.
      by rewrite decide_False.
Qed.

Lemma stopCamera_idempotent_witness :
  let s := run [Mount; ClickStartCamera;
                GetUserMediaSettled (Fulfilled front_camera)]
               (initial plain_http) in
  streamRef s = Some front_camera
  ∧ isStreaming (exec stopCamera s) = false
  ∧ tracks (exec stopCamera s) !! 7%nat
    = Some {| readyState := ended; enabled := false |}
  ∧ stopCamera (initial plain_http) = (Normal tt, initial plain_http).
Proof.
  intros s.
  destruct (stopCamera_idempotent s) as (_ & _ & _ & _ & Hactive).
  destruct (Hactive front_camera eq_refl) as (Hoff & _ & _ & Htracks & _).
  split; [reflexivity|]. split; [exact Hoff|]. split.
  - apply (Htracks 7%nat {| readyState := live; enabled := true |}).
    + apply list_elem_of_here.
    + reflexivity.
  - destruct (stopCamera_idempotent (initial plain_http))
      as (_ & Hnone & _).
    apply Hnone. reflexivity.
Defined.

Lemma startCamera_catch_eq (err : js_value) (s : App) :
  startCamera_catch err s
  = (Normal tt,
     set_effects (effects s ++ [ConsoleError "Error accessing camera:" err])
       (set_error
          (Some (if instanceof_Error err then message err
                 else "Camera access denied. Please enable camera permissions."))
          s)).
Proof. reflexivity. Qed.

Lemma startCamera_resume_rejected (err : js_value) (s : App) :
  startCamera_resume (Rejected err) s = startCamera_catch err s.
Proof. reflexivity. Qed.

Lemma startCamera_resume_fulfilled (stream : MediaStream) (s : App) :
  startCamera_resume (Fulfilled stream) s
  = (Normal tt,
     match videoRef s with
     | Some _ =>
         set_error None
           (set_isStreaming true
              (set_streamRef (Some stream)
                 (set_videoRef (Some {| srcObject := Some stream |}) s)))
     | None => s
     end).
Proof.
  unfold startCamera_resume, try_catch, await, mbind, M_bind, gets, mret,
    M_ret.
  by destruct (videoRef s).
Qed.

Lemma startCamera_call_eq (s : App) :
  startCamera_call s
  = if navigator_mediaDevices (window s)
    then (Normal true,
          set_effects (effects s ++ [GetUserMedia constraints]) s)
    else (Normal false,
          (startCamera_catch (JsError (typeErrorMessage (window s))) s).2).
Proof.
  unfold startCamera_call, try_catch, getUserMedia, mbind, M_bind, gets.
  by destruct (navigator_mediaDevices (window s)).
Qed.

(** C1, as the code has it. When the acquisition succeeds and the video
    element is still attached at that moment, the stream is stored (in
    [streamRef] and as the element's [srcObject]), the streaming flag
    becomes true and the error is cleared; the same holds for a whole
    invocation during which nothing else happens. *)
Theorem startCamera_success_attached
    (s : App) (stream : MediaStream) (video : HTMLVideoElement) :
  videoRef s = Some video →
  (let s' := exec (startCamera_resume (Fulfilled stream)) s in
   outcome (startCamera_resume (Fulfilled stream)) s = Normal tt
   ∧ streamRef s' = Some stream
   ∧ videoRef s' = Some {| srcObject := Some stream |}
   ∧ isStreaming s' = true
   ∧ error s' = None)
  ∧ (navigator_mediaDevices (window s) = true →
     let s' := exec (startCamera (Fulfilled stream)) s in
     outcome (startCamera (Fulfilled stream)) s = Normal tt
     ∧ streamRef s' = Some stream
     ∧ isStreaming s' = true
     ∧ error s' = None).
Proof.
  intros Hv. split.
  - unfold exec, outcome. rewrite startCamera_resume_fulfilled, Hv. done.
  - intros Hmd. unfold exec, outcome, startCamera, mbind, M_bind.
    rewrite startCamera_call_eq, Hmd.
    rewrite startCamera_resume_fulfilled. cbn. rewrite Hv. done.
Qed.

Lemma startCamera_success_attached_witness :
  let s := run [Mount; ClickStartCamera] (initial plain_http) in
  error s = Some "Camera access requires HTTPS or localhost connection."
  ∧ isStreaming (exec (startCamera_resume (Fulfilled front_camera)) s) = true
  ∧ error (exec (startCamera_resume (Fulfilled front_camera)) s) = None.
Proof.
  intros s.
  destruct (startCamera_success_attached s front_camera
              {| srcObject := None |} eq_refl)
    as ((_ & _ & _ & Hon & Herr) & _).
  split; [reflexivity|]. split; [exact Hon|exact Herr].
Defined.

(** C1 as stated fails: when the component goes away while the request
    is pending, the stream that arrives is not stored, the streaming flag
    stays false and the earlier error stays. *)
Lemma startCamera_success_detached :
  let s := run [Mount; ClickStartCamera; Unmount;
                GetUserMediaSettled (Fulfilled front_camera)]
               (initial plain_http) in
  effects s = [GetUserMedia constraints]
  ∧ streamRef s = None
  ∧ isStreaming s = false
  ∧ error s = Some "Camera access requires HTTPS or localhost connection.".
Proof. repeat split. Qed.

Lemma insecure_test (w : Window) :
  insecure w →
  negb (location_protocol w =? "https:")
  && negb (location_hostname w =? "localhost") = true.
Proof.
  intros [Hp Hh].
  apply String.eqb_neq in Hp. apply String.eqb_neq in Hh.
  by rewrite Hp, Hh.
Qed.

(** C2, as the code has it. The check of the context belongs to the
    mount effect: in a window whose protocol is not https: and whose host
    is not localhost it stores the error and requests no device.
    [startCamera] does not look at the context: whenever
    [navigator.mediaDevices] exists it requests the device, and when it
    does not exist the click ends in the error of the failed property
    read, without a request. *)
Theorem insecure_context_checked_on_mount (s : App) :
  insecure (window s) →
  let s' := exec mountEffect s in
  error s' = Some "Camera access requires HTTPS or localhost connection."
  ∧ effects s' = effects s
  ∧ outcome mountEffect s = Normal tt
  ∧ (navigator_mediaDevices (window s) = true →
     startCamera_call s'
     = (Normal true,
        set_effects (effects s' ++ [GetUserMedia constraints]) s'))
  ∧ (navigator_mediaDevices (window s) = false →
     outcome startCamera_call s' = Normal false
     ∧ error (exec startCamera_call s')
       = Some (typeErrorMessage (window s))
     ∧ ∀ c, GetUserMedia c ∈ effects (exec startCamera_call s') →
            GetUserMedia c ∈ effects s).
Proof.
  intros Hins s'. subst s'.
  unfold exec, outcome, mountEffect, mbind, M_bind, gets.
  rewrite (insecure_test _ Hins).
  destruct (prefers_dark (window s)); cbn.
  all: split; [done|]; split; [done|]; split; [done|]; split.
  all: intros Hmd; rewrite startCamera_call_eq; cbn; rewrite Hmd; try done.
  all: split; [done|]; split; [done|]; cbn; intros c Hc.
  all: apply elem_of_app in Hc as [Hc|Hc]; [done|].
  all: apply list_elem_of_singleton in Hc; discriminate.
Qed.

Lemma insecure_context_checked_on_mount_witness :
  insecure plain_http
  ∧ error (exec mountEffect (initial plain_http))
    = Some "Camera access requires HTTPS or localhost connection."
  ∧ effects (exec mountEffect (initial plain_http)) = [].
Proof.
  assert (Hins : insecure (window (initial plain_http))).
  { split; discriminate. }
  destruct (insecure_context_checked_on_mount (initial plain_http) Hins)
    as (Herr & Heff & _).
  split; [exact Hins|]. split; [exact Herr|exact Heff].
Defined.

(** C2 as stated fails: over plain http from another host, a click on
    start does request the device; if the platform grants it, the camera
    streams and the error of the mount check is gone. *)
Lemma startCamera_insecure_requests_device :
  insecure plain_http
  ∧ (let s := run [Mount; ClickStartCamera] (initial plain_http) in
     GetUserMedia constraints ∈ effects s)
  ∧ (let s := run [Mount; ClickStartCamera;
                   GetUserMediaSettled (Fulfilled front_camera)]
                  (initial plain_http) in
     isStreaming s = true ∧ error s = None).
Proof.
  split; [split; discriminate|].
  split; [apply list_elem_of_here|]. split; reflexivity.
Qed.

(** C5, as the code has it. A failed acquisition never escapes
    [startCamera]: both parts of it complete normally whatever happens.
    The streaming flag and the stored handle are left as they were (so a
    false flag stays false), and the error becomes the failure's own
    message when the failure is an [Error], and the fixed text otherwise;
    that message is non-empty unless the failure is an [Error] with an
    empty message.  A missing [navigator.mediaDevices] fails in the same
    way, before any request is made. *)
Theorem startCamera_failure_captured (s : App) (err : js_value) :
  let s' := exec (startCamera_resume (Rejected err)) s in
  (∀ r, outcome (startCamera_resume r) s = Normal tt)
  ∧ (∃ pending, outcome startCamera_call s = Normal pending)
  ∧ isStreaming s' = isStreaming s
  ∧ (isStreaming s = false → isStreaming s' = false)
  ∧ streamRef s' = streamRef s
  ∧ error s'
    = Some (if instanceof_Error err then message err
            else "Camera access denied. Please enable camera permissions.")
  ∧ (err ≠ JsError "" → ∃ m, error s' = Some m ∧ m ≠ "")
  ∧ (navigator_mediaDevices (window s) = false →
     let s0 := exec startCamera_call s in
     outcome startCamera_call s = Normal false
     ∧ isStreaming s0 = isStreaming s
     ∧ error s0 = Some (typeErrorMessage (window s))
     ∧ effects s0
       = (effects s
          ++ [ConsoleError "Error accessing camera:"
                (JsError (typeErrorMessage (window s)))])%list).
Proof.
  intros s'. subst s'. unfold exec, outcome.
  split; [|split].
  - intros [stream|e].
    + by rewrite startCamera_resume_fulfilled.
    + by rewrite startCamera_resume_rejected, startCamera_catch_eq.
  - rewrite startCamera_call_eq.
    destruct (navigator_mediaDevices (window s)); eauto.
  - rewrite startCamera_resume_rejected, startCamera_catch_eq. cbn.
    split; [done|]. split; [done|]. split; [done|]. split; [done|].
    split.
    + intros Hne. eexists. split; [reflexivity|].
      destruct err as [m|r]; cbn; [|discriminate]. congruence.
    + intros Hmd. rewrite startCamera_call_eq, Hmd. done.
Qed.

Lemma startCamera_failure_captured_witness :
  let s := run [Mount; ClickStartCamera] (initial plain_http) in
  let s' := exec (startCamera_resume (Rejected (JsError "Permission denied")))
                 s in
  isStreaming s' = false ∧ ∃ m, error s' = Some m ∧ m ≠ "".
Proof.
  intros s s'.
  destruct (startCamera_failure_captured s (JsError "Permission denied"))
    as (_ & _ & _ & Hoff & _ & _ & Hmsg & _).
  split; [apply Hoff; reflexivity|apply Hmsg; discriminate].
Defined.

(** C5 as stated fails: a failure that is an [Error] with an empty
    message leaves the empty string as the stored error. *)
Lemma startCamera_failure_empty_message :
  let s := run [Mount; ClickStartCamera;
                GetUserMediaSettled (Rejected (JsError ""))]
               (initial plain_http) in
  isStreaming s = false ∧ error s = Some "".
Proof. split; reflexivity. Qed.

(** ** The copied mark *)







Lemma clearConversions_frame_witness :
  let c := Conversion.mk 1000 "Hello, how are you?" "10:00:00" in
  let s := run [ClickConvertToText 1000 "10:00:00";
                WriteTextSettled 1000 (Fulfilled tt)]
               (initial plain_http) in
  c ∈ conversions s
  ∧ isCopied (exec clearConversions s) c = true
  ∧ c ∉ conversions (exec clearConversions s).
Proof.
  intros c s.
  destruct (clearConversions_frame s) as (_ & _ & _ & _ & _ & _ & H).
  split; [apply list_elem_of_here|]. apply H. reflexivity.
Defined.

(** * Further properties of the component *)

(** ** How each event moves the state *)

Lemma fire_fields (due : list (N * timer_callback)) (s : App) :
  foldl (λ s t, exec (run_callback t.2) s) s due
  = set_copiedId (match due with [] => copiedId s | _ => None end) s.
Proof.
  revert s. induction due as [|[d []] due IH]; intros s; cbn [foldl].
  - by destruct s.
  - rewrite IH. destruct s, due; reflexivity.
Qed.

Lemma elapse_eq (ms : N) (s : App) :
  elapse ms s
  = set_copiedId
      (match filter (is_due (clock s + ms)) (timers s) with
       | [] => copiedId s
       | _ => None
       end)
      (set_clock (clock s + ms)
         (set_timers (filter (λ t, ¬ is_due (clock s + ms) t) (timers s)) s)).
Proof. unfold elapse. by rewrite fire_fields. Qed.

Lemma step_dark (s : App) (e : event) :
  (isDarkMode (step s e), classList_dark (step s e))
  = match e with
    | Mount => if prefers_dark (window s) then (true, true)
               else (isDarkMode s, classList_dark s)
    | ClickToggleDarkMode shown => (negb shown, negb (classList_dark s))
    | _ => (isDarkMode s, classList_dark s)
    end.
Proof.
  destruct e; try (cbn [step]; rewrite elapse_eq; reflexivity).
  all: handler_cases; reflexivity.
Qed.

Lemma step_conversions (s : App) (e : event) :
  conversions (step s e)
  = match e with
    | ClickConvertToText now localeTime =>
        Conversion.mk now "Hello, how are you?" localeTime :: conversions s
    | ClickClear => []
    | _ => conversions s
    end.
Proof.
  destruct e; try (cbn [step]; rewrite elapse_eq; reflexivity).
  all: handler_cases; reflexivity.
Qed.

Lemma step_window (s : App) (e : event) : window (step s e) = window s.
Proof.
  destruct e; try (cbn [step]; rewrite elapse_eq; reflexivity).
  all: handler_cases; reflexivity.
Qed.

Lemma lookup_foldl_insert (x : MediaStreamTrack) (ids : list nat)
    (m : gmap nat MediaStreamTrack) (t : nat) :
  foldl (λ m t, <[t := x]> m) m ids !! t
  = if decide (t ∈ ids) then Some x else m !! t.
Proof.
  revert m. induction ids as [|i ids IH]; intros m; cbn [foldl].
  - rewrite decide_False; [done|apply not_elem_of_nil].
  - rewrite IH. destruct (decide (t ∈ ids)) as [Hin|Hnin].
    + rewrite decide_True; [done|by apply list_elem_of_further].
    + destruct (decide (t = i)) as [->|Hne].
      * rewrite lookup_insert_eq.
        rewrite decide_True; [done|apply list_elem_of_here].
      * rewrite lookup_insert_ne by done.
        rewrite decide_False; [done|].
        rewrite elem_of_cons. intros [?|?]; done.
Qed.

(** ** The invariants are kept by every event *)

Lemma initial_session_consistent (w : Window) :
  session_consistent (initial w).
Proof.
  split.
  - cbn. split; [discriminate|]. intros [x Hx]. discriminate.
  - intros video Hv. cbn in Hv. by simplify_eq.
Qed.

Lemma session_consistent_step (s : App) (e : event) :
  session_consistent s → session_consistent (step s e).
Proof.
  intros [Hflag Hvideo].
  destruct e; try (cbn [step]; rewrite elapse_eq; by split).
  all: unfold session_consistent; handler_cases.
  all: repeat match goal with
         | H : streamRef ?a = _ |- context [streamRef ?a] => rewrite H
         end.
  all: try (by split).
  all: split; [|intros video Hv; simplify_eq/=; by eauto].
  all: split; [done|].
  all: first [by intros _ | intros [x Hx]; discriminate].
Qed.

Lemma session_consistent_run (es : list event) (s : App) :
  session_consistent s → session_consistent (run es s).
Proof.
  revert s. induction es as [|e es IH]; intros s Hs; [done|].
  apply IH. by apply session_consistent_step.
Qed.

Lemma unmounted_step (s : App) (e : event) :
  unmounted s → unmounted (step s e).
Proof.
  intros (Hv & Hs & Hf).
  destruct e; try (cbn [step]; rewrite elapse_eq; by repeat split).
  all: unfold unmounted; handler_cases; by repeat split.
Qed.

Lemma unmounted_run (es : list event) (s : App) :
  unmounted s → unmounted (run es s).
Proof.
  revert s. induction es as [|e es IH]; intros s Hs; [done|].
  apply IH. by apply unmounted_step.
Qed.

Lemma unmounted_step_live (s : App) (e : event) (t : nat) :
  unmounted s →
  tracks s !! t = Some live_track →
  tracks (step s e) !! t = Some live_track.
Proof.
  intros (Hv & Hs & Hf) Ht.
  destruct e; try (cbn [step]; rewrite elapse_eq; exact Ht).
  all: handler_cases; try exact Ht.
  all: rewrite lookup_foldl_insert; by case_decide.
Qed.

Lemma unmounted_run_live (es : list event) (s : App) (t : nat) :
  unmounted s →
  tracks s !! t = Some live_track →
  tracks (run es s) !! t = Some live_track.
Proof.
  revert s. induction es as [|e es IH]; intros s Hs Ht; [done|].
  apply IH; [by apply unmounted_step|by apply unmounted_step_live].
Qed.

Lemma filter_none_due (now : N) (l : list (N * timer_callback)) :
  filter (is_due now) l = [] → filter (λ t, ¬ is_due now t) l = l.
Proof.
  induction l as [|t l IH]; [done|].
  rewrite (filter_cons (is_due now)), (filter_cons (λ t, ¬ is_due now t)).
  destruct (decide (is_due now t)) as [Hd|Hd]; [discriminate|].
  intros Hnil. rewrite decide_True by done. by rewrite IH.
Qed.

Lemma initial_timers_bounded (w : Window) : timers_bounded (initial w).
Proof.
  split.
  - intros t Ht. cbn in Ht. by apply not_elem_of_nil in Ht.
  - intros [x Hx]. discriminate.
Qed.

Lemma timers_bounded_step (s : App) (e : event) :
  timers_bounded s → timers_bounded (step s e).
Proof.
  intros [Hbound Hmark].
  destruct e.
  12: {
    cbn [step]. rewrite elapse_eq. split; cbn.
    - intros t Ht. apply list_elem_of_filter in Ht as [_ Ht].
      specialize (Hbound t Ht). lia.
    - destruct (filter (is_due (clock s + ms)) (timers s)) eqn:Hdue.
      + intros Hsome. rewrite filter_none_due by done. by apply Hmark.
      + intros [x Hx]. discriminate. }
  all: unfold timers_bounded; handler_cases; try (by split).
  split; cbn.
  - intros t Ht. apply elem_of_app in Ht as [Ht|Ht]; [by apply Hbound|].
    apply list_elem_of_singleton in Ht. subst t. cbn. lia.
  - intros _ Hnil. by apply app_eq_nil in Hnil as [_ ?].
Qed.

Lemma timers_bounded_run (es : list event) (s : App) :
  timers_bounded s → timers_bounded (run es s).
Proof.
  revert s. induction es as [|e es IH]; intros s Hs; [done|].
  apply IH. by apply timers_bounded_step.
Qed.

Lemma timers_bounded_quiet (s : App) (ms : N) :
  timers_bounded s → (2000 ≤ ms)%N →
  copiedId (elapse ms s) = None ∧ timers (elapse ms s) = [].
Proof.
  intros [Hbound Hmark] Hms. rewrite elapse_eq. cbn.
  assert (Hall : filter (is_due (clock s + ms)) (timers s) = timers s).
  { clear Hmark. induction (timers s) as [|t l IH]; [done|].
    rewrite filter_cons_True.
    - rewrite IH; [done|]. intros t' Ht'. apply Hbound.
      by apply list_elem_of_further.
    - unfold is_due. specialize (Hbound t (list_elem_of_here _ _)). lia. }
  assert (Hrest : filter (λ t, ¬ is_due (clock s + ms) t) (timers s) = []).
  { clear Hmark Hall. induction (timers s) as [|t l IH]; [done|].
    rewrite filter_cons_False.
    - apply IH. intros t' Ht'. apply Hbound. by apply list_elem_of_further.
    - intros Hn. apply Hn. unfold is_due.
      specialize (Hbound t (list_elem_of_here _ _)). lia. }
  rewrite Hall, Hrest. split; [|done].
  destruct (timers s) as [|t l] eqn:Ht; [|done].
  destruct (copiedId s) as [i|] eqn:Hc; [|done].
  exfalso. by apply Hmark.
Qed.

Lemma render_row_checked (s : App) (c : Conversion.t) :
  row_icon (render_row s c) = CheckIcon ↔ isCopied s c = true.
Proof. cbn. destruct (isCopied s c); split; (done || discriminate). Qed.

Lemma filter_checked_rows (s : App) (i : Z) (l : list Conversion.t) :
  copiedId s = Some i →
  filter (λ r, row_icon r = CheckIcon) (render_row s <$> l)
  = render_row s <$> filter (λ c, Conversion.id c = i) l.
Proof.
  intros Hc. induction l as [|c l IH]; [done|].
  rewrite fmap_cons, (filter_cons (λ r, row_icon r = CheckIcon)),
    (filter_cons (λ c, Conversion.id c = i)), IH.
  destruct (decide (Conversion.id c = i)) as [Hi|Hi].
  - rewrite decide_True; [done|].
    apply render_row_checked, bool_decide_eq_true. by rewrite Hc, Hi.
  - rewrite decide_False; [done|].
    rewrite render_row_checked. unfold isCopied.
    rewrite bool_decide_eq_true, Hc. congruence.
Qed.

Lemma filter_id_absent (i : Z) (l : list Conversion.t) :
  i ∉ Conversion.id <$> l → filter (λ c, Conversion.id c = i) l = [].
Proof.
  induction l as [|c l IH]; [done|].
  rewrite fmap_cons, not_elem_of_cons. intros [Hne Hnin].
  rewrite filter_cons_False by congruence. by apply IH.
Qed.

Lemma filter_id_NoDup (c : Conversion.t) (l : list Conversion.t) :
  NoDup (Conversion.id <$> l) → c ∈ l →
  filter (λ c', Conversion.id c' = Conversion.id c) l = [c].
Proof.
  induction l as [|c' l IH]; intros Hnd Hin.
  - by apply not_elem_of_nil in Hin.
  - rewrite fmap_cons in Hnd. apply NoDup_cons in Hnd as [Hfresh Hnd].
    rewrite filter_cons. apply elem_of_cons in Hin as [->|Hin].
    + rewrite decide_True by done. f_equal.
      by apply filter_id_absent.
    + rewrite decide_False; [by apply IH|].
      intros Heq. apply Hfresh. rewrite Heq. apply list_elem_of_fmap. eauto.
Qed.

Lemma placeholder_step (s : App) (e : event) :
  Forall (λ c, Conversion.text c = "Hello, how are you?") (conversions s) →
  Forall (λ c, Conversion.text c = "Hello, how are you?")
         (conversions (step s e)).
Proof.
  intros H. rewrite step_conversions. destruct e; try done.
  by apply Forall_cons.
Qed.

Lemma suffix_step (s : App) (e : event) :
  is_clear e = false → conversions s `suffix_of` conversions (step s e).
Proof.
  intros He. rewrite step_conversions. destruct e; try done.
  by apply suffix_cons_r.
Qed.

Lemma unmount_eq (s : App) : unmount s = stopCamera (set_videoRef None s).
Proof. reflexivity. Qed.

Lemma filter_unmarked_rows (s : App) (l : list Conversion.t) :
  copiedId s = None →
  filter (λ r, row_icon r = CheckIcon) (render_row s <$> l) = [].
Proof.
  intros Hc. induction l as [|c l IH]; [done|].
  rewrite fmap_cons, filter_cons_False; [exact IH|].
  rewrite render_row_checked. unfold isCopied.
  rewrite bool_decide_eq_true, Hc. discriminate.
Qed.

Lemma checked_rows_unmarked (s : App) :
  copiedId s = None → checked_rows (render s) = [].
Proof.
  intros Hc. unfold checked_rows, render. cbn [panel].
  case_bool_decide; [done|]. by apply filter_unmarked_rows.
Qed.

(** ** Dark mode *)

(** X1. The class on the document root follows the dark-mode cell as
    long as every click on the button is received by the handler of a
    render that shows the current flag: if the two agree, they agree
    after any such sequence of events.  A click received by a handler
    whose render showed the other value breaks the agreement. *)
Theorem dark_class_follows_flag (s : App) (es : list event) :
  dark_in_sync s →
  (toggles_fresh es s → dark_in_sync (run es s))
  ∧ (∀ shown, shown ≠ isDarkMode s →
       ¬ dark_in_sync (step s (ClickToggleDarkMode shown))).
Proof.
  intros Hs. split.
  - revert s Hs. induction es as [|e es IH]; intros s Hs Hfresh; [done|].
    destruct Hfresh as [He Hfresh].
    apply IH; [|exact Hfresh]. unfold dark_in_sync in *.
    pose proof (step_dark s e) as H.
    destruct e; try destruct (prefers_dark (window s)); simplify_eq;
      congruence.
  - intros shown Hne. unfold dark_in_sync in *.
    change (negb (classList_dark s) ≠ negb shown). rewrite Hs.
    destruct shown, (isDarkMode s); done.
Qed.

Lemma dark_class_follows_flag_witness :
  dark_in_sync
    (run [Mount; ClickToggleDarkMode true; ClickStartCamera;
          ClickToggleDarkMode false; ClickToggleDarkMode true]
         (initial dark_localhost))
  ∧ ¬ dark_in_sync
        (run [Mount; ClickToggleDarkMode true; ClickToggleDarkMode true]
             (initial dark_localhost)).
Proof.
  split.
  - apply (dark_class_follows_flag (initial dark_localhost)).
    + reflexivity.
    + repeat split.
  - apply (dark_class_follows_flag
             (run [Mount; ClickToggleDarkMode true] (initial dark_localhost))
             []).
    + reflexivity.
    + discriminate.
Defined.

(** X7. Running the mount effect a second time changes nothing more:
    the preference is written with [add], not [toggle], and the error is
    the same text. *)
Theorem mountEffect_idempotent (s : App) :
  outcome mountEffect s = Normal tt
  ∧ exec mountEffect (exec mountEffect s) = exec mountEffect s.
Proof.
  assert (Heq : ∀ s0, mountEffect s0
    = (Normal tt,
       let s1 := if prefers_dark (window s0)
                 then set_classList_dark true (set_isDarkMode true s0)
                 else s0 in
       if negb (location_protocol (window s0) =? "https:")
          && negb (location_hostname (window s0) =? "localhost")
       then set_error
              (Some "Camera access requires HTTPS or localhost connection.")
              s1
       else s1)).
  { intros s0. handler.
    destruct (prefers_dark (window s0)); cbn; by case_match. }
  unfold outcome, exec. rewrite !Heq. split; [done|]. cbn.
  destruct s as [st er cs ci dm vr sr w cd tr ck tm ef]. cbn.
  destruct (prefers_dark w) eqn:Hp;
    destruct (negb (location_protocol w =? "https:")
              && negb (location_hostname w =? "localhost")) eqn:Ht;
    unfold set_error, set_classList_dark, set_isDarkMode; cbn;
    rewrite ?Hp, ?Ht; reflexivity.
Qed.

(** ** The camera session along runs *)

(** X2. In every state the component can reach, the streaming flag is on
    exactly when a stream handle is stored, and the video element, while
    attached, shows exactly the stored stream. *)
Theorem session_consistent_reachable (w : Window) (es : list event) :
  session_consistent (run es (initial w)).
Proof. apply session_consistent_run, initial_session_consistent. Qed.

(** X3. The cleanup of the second effect releases the camera: when the
    component goes away with a stream stored, every track of that stream
    ends up ended and disabled, the handle is dropped and the flag is
    off. *)
Theorem unmount_releases_camera (s : App) (stream : MediaStream) :
  streamRef s = Some stream →
  let s' := exec unmount s in
  outcome unmount s = Normal tt
  ∧ isStreaming s' = false
  ∧ streamRef s' = None
  ∧ videoRef s' = None
  ∧ (∀ t track, t ∈ getTracks stream → tracks s !! t = Some track →
       tracks s' !! t = Some {| readyState := ended; enabled := false |}).
Proof.
  intros Hs s'. subst s'. unfold exec, outcome.
  rewrite unmount_eq, (stopCamera_active _ stream) by exact Hs. cbn.
  repeat split.
  intros t track Hin Ht. rewrite lookup_foldl_alter by done.
  rewrite decide_True by done. by rewrite Ht.
Qed.

Lemma unmount_releases_camera_witness :
  let s := run [Mount; ClickStartCamera;
                GetUserMediaSettled (Fulfilled front_camera)]
               (initial plain_http) in
  tracks s !! 7%nat = Some live_track
  ∧ tracks (exec unmount s) !! 7%nat
    = Some {| readyState := ended; enabled := false |}.
Proof.
  intros s. split; [reflexivity|].
  destruct (unmount_releases_camera s front_camera eq_refl)
    as (_ & _ & _ & _ & H).
  apply (H 7%nat live_track); [apply list_elem_of_here|reflexivity].
Defined.

(** X4. Once the component has unmounted, nothing turns the camera
    session back on: through every later event the video ref stays
    empty, no handle is stored and the streaming flag stays off. *)
Theorem unmounted_stays_off (s : App) (es : list event) :
  session_consistent s → unmounted (run es (step s Unmount)).
Proof.
  intros [Hflag _]. apply unmounted_run.
  cbn [step]. unfold exec. rewrite unmount_eq.
  destruct (streamRef s) as [stream|] eqn:Hs.
  - rewrite (stopCamera_active _ stream) by exact Hs. by repeat split.
  - rewrite stopCamera_inactive by exact Hs.
    repeat split; cbn; [done|].
    destruct (isStreaming s); [|done].
    destruct Hflag as [Hflag _]. destruct (Hflag eq_refl). discriminate.
Qed.

Lemma unmounted_stays_off_witness :
  unmounted
    (run [GetUserMediaSettled (Fulfilled second_camera); ClickStopCamera]
         (step (run [Mount; ClickStartCamera;
                     GetUserMediaSettled (Fulfilled front_camera);
                     ClickStartCamera]
                    (initial plain_http))
               Unmount)).
Proof.
  apply unmounted_stays_off, session_consistent_run,
    initial_session_consistent.
Defined.

(** X5. A stream that is granted after the component has unmounted is
    never stopped: its tracks are live and enabled after every later
    sequence of events. *)
Theorem late_stream_stays_live
    (s : App) (stream : MediaStream) (es : list event) (t : nat) :
  unmounted s →
  t ∈ getTracks stream →
  tracks (run (GetUserMediaSettled (Fulfilled stream) :: es) s) !! t
  = Some live_track.
Proof.
  intros Hu Hin. cbn [run foldl]. apply unmounted_run_live.
  - by apply unmounted_step.
  - destruct Hu as (Hv & _ & _). cbn [step open_tracks]. unfold exec.
    rewrite startCamera_resume_fulfilled.
    change (videoRef (set_tracks ?m s)) with (videoRef s). rewrite Hv. cbn.
    rewrite lookup_foldl_insert. by rewrite decide_True.
Qed.

Lemma late_stream_stays_live_witness :
  tracks
    (run [GetUserMediaSettled (Fulfilled front_camera); ClickStopCamera;
          Unmount]
         (run [Mount; ClickStartCamera; Unmount] (initial plain_http)))
  !! 7%nat
  = Some live_track.
Proof.
  apply late_stream_stays_live.
  - repeat split.
  - apply list_elem_of_here.
Defined.

(** X6. A second acquisition that succeeds while a stream is stored
    takes the place of the stored handle without stopping it, and the
    stop that follows only stops the new stream: a track of the replaced
    stream that is not a track of the new one is left as it was, while
    the component reports no session. *)
Theorem replaced_stream_not_stopped
    (s : App) (old new : MediaStream) (video : HTMLVideoElement) (t : nat) :
  streamRef s = Some old →
  videoRef s = Some video →
  t ∈ getTracks old →
  t ∉ getTracks new →
  let s1 := exec (startCamera_resume (Fulfilled new)) s in
  let s2 := exec stopCamera s1 in
  streamRef s1 = Some new
  ∧ tracks s1 = tracks s
  ∧ tracks s2 !! t = tracks s !! t
  ∧ streamRef s2 = None
  ∧ isStreaming s2 = false.
Proof.
  intros Hold Hv Hin Hnin s1 s2. subst s2 s1. unfold exec.
  rewrite startCamera_resume_fulfilled, Hv. cbn.
  rewrite (stopCamera_active _ new) by reflexivity. cbn.
  repeat split.
  rewrite lookup_foldl_alter by done. by rewrite decide_False.
Qed.

Lemma replaced_stream_not_stopped_witness :
  let s := run [Mount; ClickStartCamera; ClickStartCamera;
                GetUserMediaSettled (Fulfilled front_camera);
                GetUserMediaSettled (Fulfilled second_camera);
                ClickStopCamera]
               (initial plain_http) in
  isStreaming s = false ∧ tracks s !! 7%nat = Some live_track.
Proof.
  pose (s0 := open_tracks (Fulfilled second_camera)
                (run [Mount; ClickStartCamera; ClickStartCamera;
                      GetUserMediaSettled (Fulfilled front_camera)]
                     (initial plain_http))).
  destruct (replaced_stream_not_stopped s0 front_camera second_camera
              {| srcObject := Some front_camera |} 7%nat eq_refl eq_refl)
    as (_ & _ & Htrack & _ & Hoff).
  - apply list_elem_of_here.
  - intros H. apply list_elem_of_singleton in H. discriminate.
  - split; [exact Hoff|]. etransitivity; [exact Htrack|reflexivity].
Defined.

(** X16. Start and stop undo each other: from a state without a session
    and with the video element attached and empty, a successful start
    followed by a stop gives the state back, except that the error has
    been cleared and the tracks of the granted stream are ended and
    disabled. *)
Theorem start_stop_round_trip (s : App) (stream : MediaStream) :
  streamRef s = None →
  isStreaming s = false →
  videoRef s = Some {| srcObject := None |} →
  exec stopCamera (exec (startCamera_resume (Fulfilled stream)) s)
  = set_error None
      (set_tracks
         (foldl (λ m t,
                   alter (λ track, track_set_enabled false (track_stop track))
                         t m)
                (tracks s) (getTracks stream))
         s).
Proof.
  intros Hs Hf Hv.
  destruct s as [st er cs ci dm vr sr w cd tr ck tm ef].
  cbn in Hs, Hf, Hv. subst.
  unfold exec. rewrite startCamera_resume_fulfilled. cbn.
  rewrite (stopCamera_active _ stream) by reflexivity. reflexivity.
Qed.

Lemma start_stop_round_trip_witness :
  let s := open_tracks (Fulfilled front_camera)
             (run [Mount; ClickStartCamera] (initial dark_localhost)) in
  let s' := exec stopCamera
              (exec (startCamera_resume (Fulfilled front_camera)) s) in
  isStreaming s' = false
  ∧ videoRef s' = Some {| srcObject := None |}
  ∧ effects s' = effects s.
Proof.
  intros s s'. subst s'.
  rewrite (start_stop_round_trip s front_camera eq_refl eq_refl eq_refl).
  repeat split.
Defined.

(** ** The clipboard and the copied mark *)

(** X8. A copy that fails is silent: whether the write is rejected or
    [navigator.clipboard] is missing, nothing escapes the handler, no
    state cell changes, no timer is set and the view is the one from
    before; the only trace is one line on the error console. *)
Theorem copy_failure_is_silent (s : App) (id : Z) (err : js_value) :
  copyToClipboard_resume id (Rejected err) s
  = (Normal tt,
     set_effects (effects s ++ [ConsoleError "Failed to copy text:" err]) s)
  ∧ render (exec (copyToClipboard_resume id (Rejected err)) s) = render s
  ∧ (navigator_clipboard (window s) = false →
     ∀ text,
       copyToClipboard_call text id s
       = (Normal false,
          set_effects
            (effects s
             ++ [ConsoleError "Failed to copy text:"
                   (JsError (typeErrorMessage (window s)))]) s)
       ∧ render (exec (copyToClipboard_call text id) s) = render s).
Proof.
  split; [reflexivity|]. split; [reflexivity|].
  intros Hc text.
  assert (Heq : copyToClipboard_call text id s
                = (Normal false,
                   set_effects
                     (effects s
                      ++ [ConsoleError "Failed to copy text:"
                            (JsError (typeErrorMessage (window s)))]) s)).
  { handler. by rewrite Hc. }
  split; [exact Heq|]. unfold exec. by rewrite Heq.
Qed.

Lemma copy_failure_is_silent_witness :
  let s := run [Mount; ClickConvertToText 1000 "10:00:00"]
               (initial dark_localhost) in
  render (exec (copyToClipboard_call "Hello, how are you?" 1000) s)
  = render s
  ∧ copiedId (exec (copyToClipboard_call "Hello, how are you?" 1000) s)
    = None.
Proof.
  intros s.
  destruct (copy_failure_is_silent s 1000 (JsOther "denied"))
    as (_ & _ & H).
  destruct (H eq_refl "Hello, how are you?") as [Hcall Hview].
  split; [exact Hview|]. unfold exec. by rewrite Hcall.
Defined.

(** X9. A mark never outlives 2000 ms of quiet: in every state the
    component can reach, whatever copies went before, once 2000 ms or
    more pass without another event no id is marked, no timer is
    pending and no row shows the check mark. *)
Theorem quiet_window_clears_mark (w : Window) (es : list event) (ms : N) :
  (2000 ≤ ms)%N →
  let s := elapse ms (run es (initial w)) in
  copiedId s = None ∧ timers s = [] ∧ checked_rows (render s) = [].
Proof.
  intros Hms s.
  destruct (timers_bounded_quiet (run es (initial w)) ms) as [Hc Ht];
    [apply timers_bounded_run, initial_timers_bounded|exact Hms|].
  split; [exact Hc|]. split; [exact Ht|].
  by apply checked_rows_unmarked.
Qed.

Lemma quiet_window_clears_mark_witness :
  let s := run [ClickConvertToText 1001 "10:00:01";
                WriteTextSettled 1001 (Fulfilled tt); Elapse 1500;
                WriteTextSettled 1001 (Fulfilled tt); Elapse 400]
               (initial plain_http) in
  copiedId s = Some 1001%Z ∧ copiedId (elapse 2000 s) = None.
Proof.
  intros s. split; [reflexivity|].
  apply (quiet_window_clears_mark plain_http
           [ClickConvertToText 1001 "10:00:01";
            WriteTextSettled 1001 (Fulfilled tt); Elapse 1500;
            WriteTextSettled 1001 (Fulfilled tt); Elapse 400] 2000).
  discriminate.
Defined.

(** X10. After a successful copy the rows that show the check mark are
    exactly the rows of the records that carry the copied id; the row of
    the copied record is among them, and when the ids in the log are
    pairwise distinct it is the only one. *)
Theorem copy_checks_rows (s : App) (c : Conversion.t) :
  c ∈ conversions s →
  let s1 := exec (copyToClipboard_resume (Conversion.id c) (Fulfilled tt))
                 s in
  checked_rows (render s1)
  = render_row s1
    <$> filter (λ c', Conversion.id c' = Conversion.id c) (conversions s)
  ∧ render_row s1 c ∈ checked_rows (render s1)
  ∧ (NoDup (Conversion.id <$> conversions s) →
     checked_rows (render s1) = [render_row s1 c]).
Proof.
  intros Hin s1.
  assert (Hrows : checked_rows (render s1)
                  = render_row s1
                    <$> filter (λ c', Conversion.id c' = Conversion.id c)
                               (conversions s)).
  { unfold checked_rows, render. cbn [panel].
    change (conversions s1) with (conversions s).
    rewrite bool_decide_eq_false_2.
    - by apply filter_checked_rows.
    - intros Hlen. apply nil_length_inv in Hlen. rewrite Hlen in Hin.
      by apply not_elem_of_nil in Hin. }
  split; [exact Hrows|]. split.
  - rewrite Hrows. apply list_elem_of_fmap. exists c. split; [done|].
    by apply list_elem_of_filter.
  - intros Hnd. by rewrite Hrows, filter_id_NoDup.
Qed.

Lemma copy_checks_rows_witness :
  let s := run (convert_clicks [(1000%Z, "10:00:00"); (1000%Z, "10:00:00");
                                (1001%Z, "10:00:01")])
               (initial plain_http) in
  let c := Conversion.mk 1000 "Hello, how are you?" "10:00:00" in
  let s1 := exec (copyToClipboard_resume 1000 (Fulfilled tt)) s in
  length (checked_rows (render s1)) = 2%nat.
Proof.
  intros s c s1.
  assert (Hin : c ∈ conversions s).
  { apply list_elem_of_further, list_elem_of_here. }
  destruct (copy_checks_rows s c Hin) as (Hrows & _ & _).
  subst s1. change 1000%Z with (Conversion.id c) at 1.
  rewrite Hrows. reflexivity.
Defined.

(** ** The view and the session *)

(** X11. In every state the component can reach, the buttons follow the
    stored handle: the stop button is there, and the two convert buttons
    are enabled, exactly when a stream is stored; the start overlay is
    there, and the video is hidden, exactly when none is. *)
Theorem view_follows_session (w : Window) (es : list event) :
  let s := run es (initial w) in
  let v := render s in
  (stop_button v = true ↔ is_Some (streamRef s))
  ∧ (convert_text_disabled v = false ↔ is_Some (streamRef s))
  ∧ (convert_speech_disabled v = false ↔ is_Some (streamRef s))
  ∧ (start_overlay v = true ↔ streamRef s = None)
  ∧ (video_hidden v = true ↔ streamRef s = None).
Proof.
  intros s v.
  destruct (session_consistent_run es (initial w)
              (initial_session_consistent w)) as [Hflag _].
  fold s in Hflag. subst v. cbn.
  rewrite !negb_false_iff, !negb_true_iff.
  split; [exact Hflag|]. split; [exact Hflag|]. split; [exact Hflag|].
  assert (Hoff : isStreaming s = false ↔ streamRef s = None).
  { rewrite <- not_true_iff_false, Hflag. symmetry.
    apply eq_None_not_Some. }
  by split.
Qed.

(** X12. What the user sees after a failed acquisition: the banner
    shows the failure's own message when the failure is an [Error] with
    a non-empty message and the fixed text when it is not an [Error];
    for an [Error] with an empty message no banner is rendered at all.
    The buttons and the list are the ones from before. *)
Theorem failed_start_banner (s : App) (err : js_value) :
  let v := render (exec (startCamera_resume (Rejected err)) s) in
  (∀ m, err = JsError m → m ≠ "" → error_banner v = Some m)
  ∧ (err = JsError "" → error_banner v = None)
  ∧ (∀ r, err = JsOther r →
       error_banner v
       = Some "Camera access denied. Please enable camera permissions.")
  ∧ start_overlay v = start_overlay (render s)
  ∧ stop_button v = stop_button (render s)
  ∧ convert_text_disabled v = convert_text_disabled (render s)
  ∧ convert_speech_disabled v = convert_speech_disabled (render s)
  ∧ panel v = panel (render s).
Proof.
  intros v. subst v. unfold exec.
  rewrite startCamera_resume_rejected, startCamera_catch_eq.
  split; [|split; [|split]].
  - intros m -> Hm. cbn. by destruct m.
  - by intros ->.
  - by intros r ->.
  - repeat split.
Qed.

Lemma failed_start_banner_witness :
  let s := run [Mount; ClickStartCamera] (initial dark_localhost) in
  error_banner (render s) = None
  ∧ error_banner
      (render (exec (startCamera_resume
                       (Rejected (JsError "Permission denied"))) s))
    = Some "Permission denied"
  ∧ error_banner
      (render (exec (startCamera_resume (Rejected (JsError ""))) s))
    = None.
Proof.
  intros s. split; [reflexivity|]. split.
  - destruct (failed_start_banner s (JsError "Permission denied"))
      as (H & _).
    apply H; [reflexivity|discriminate].
  - destruct (failed_start_banner s (JsError "")) as (_ & H & _).
    apply H. reflexivity.
Defined.

(** ** The log along runs *)

(** X13. Only the clear button removes records: after any sequence of
    events without a click on clear, the log from before is still there,
    unchanged and in the same order, below whatever was added. *)
Theorem log_only_shrinks_by_clear (s : App) (es : list event) :
  forallb (λ e, negb (is_clear e)) es = true →
  conversions s `suffix_of` conversions (run es s).
Proof.
  revert s. induction es as [|e es IH]; intros s Hes; [done|].
  cbn in Hes. apply andb_true_iff in Hes as [He Hes].
  apply negb_true_iff in He.
  transitivity (conversions (step s e)).
  - by apply suffix_step.
  - by apply IH.
Qed.

Lemma log_only_shrinks_by_clear_witness :
  let s := run (convert_clicks [(1000%Z, "10:00:00")]) (initial plain_http) in
  conversions s
  `suffix_of`
  conversions
    (run [ClickStartCamera; GetUserMediaSettled (Fulfilled front_camera);
          ClickConvertToText 1001 "10:00:01";
          WriteTextSettled 1000 (Fulfilled tt); Elapse 2500;
          ClickStopCamera; Unmount]
         s).
Proof.
  intros s. apply log_only_shrinks_by_clear. reflexivity.
Defined.

(** X14. Every record the component can ever show carries the fixed
    placeholder text. *)
Theorem records_carry_placeholder
    (w : Window) (es : list event) (c : Conversion.t) :
  c ∈ conversions (run es (initial w)) →
  Conversion.text c = "Hello, how are you?".
Proof.
  assert (Hall : ∀ s,
    Forall (λ c, Conversion.text c = "Hello, how are you?") (conversions s) →
    Forall (λ c, Conversion.text c = "Hello, how are you?")
           (conversions (run es s))).
  { induction es as [|e es IH]; intros s Hs; [done|].
    apply IH. by apply placeholder_step. }
  intros Hin.
  specialize (Hall (initial w) (Forall_nil_2 _)).
  rewrite Forall_forall in Hall. by apply Hall.
Qed.

Lemma records_carry_placeholder_witness :
  Conversion.text (Conversion.mk 1001 "Hello, how are you?" "10:00:01")
  = "Hello, how are you?".
Proof.
  apply (records_carry_placeholder plain_http
           [Mount; ClickConvertToText 1000 "10:00:00"; ClickClear;
            ClickConvertToText 1001 "10:00:01"]).
  apply list_elem_of_here.
Defined.

(** X15. Clearing forgets everything that went before: N clicks on
    convert-to-text after a clear leave exactly the N new records, the
    latest first, whatever the log held; and a clear after them leaves
    the log empty. *)
Theorem clear_resets_log (s : App) (inputs : list (Z * string)) :
  conversions (run (ClickClear :: convert_clicks inputs) s)
  = reverse (placeholder <$> inputs)
  ∧ conversions (run (convert_clicks inputs ++ [ClickClear]) s) = [].
Proof.
  split.
  - cbn [run foldl]. change (foldl step ?a ?l) with (run l a).
    rewrite conversions_convert_clicks. cbn. by rewrite app_nil_r.
  - unfold run. rewrite foldl_app. reflexivity.
Qed.
